(** * chessServer: room lifecycle and turn authority

    A shallow embedding of the socket.io relay server for two-player chess
    rooms, and the properties of its room state machine. The functions
    embedded are those of the current server file: [genCode], [createRoom],
    [handleJoinRoom], [handleMove], [validateMovePayload], [applyMoveServer],
    [validateLegalMove], [initialState], [emitRoomState] and
    [handleDisconnect], with the [POST /room] route, the sweep run by
    [setInterval] and the three socket listeners. The functions in which the
    older copy kept under [server/index.js] differs are in [ServerIndex].

    Conventions of the embedding:
    - a JavaScript value is a [JsVal]; objects are property lists in
      insertion order, the first binding of a key being the one read;
    - the process-wide [rooms] object, the [socket.data] of the sockets and
      the channels they joined are fields of the [Server] state, a socket
      being named by its [socket.id];
    - a handler is a computation [M A] that threads the [Server] state and
      may throw; the state reached at the throw is kept, as in JavaScript;
    - the readings of [Date.now()] are arguments of the handlers;
    - everything emitted is appended to the [outbox] of the state. *)

From Stdlib Require Import ZArith String Ascii Bool Lia.
From stdpp Require Import base option list strings pretty gmap.

Local Open Scope string_scope.

(** ** JavaScript values *)

(** Numbers are split by what the server can observe of them:
    [Number.isInteger] and truthiness.  [JInt z] is a number whose value is
    the integer [z] (the two zeros are one value: they are [===], neither is
    below 0, both are falsy); [JNonInt] is a fraction or an infinity. *)
#[warnings="-register-all"]
Inductive JsVal : Type :=
  | JUndefined
  | JNull
  | JBool (b : bool)
  | JInt (z : Z)
  | JNaN
  | JNonInt
  | JStr (s : string)
  | JArr (items : list JsVal)
  | JObj (props : list (string * JsVal)).

(** ToBoolean. *)
Definition truthy (v : JsVal) : bool :=
  match v with
  | JUndefined | JNull | JNaN => false
  | JBool b => b
  | JInt z => negb (z =? 0)%Z
  | JNonInt => true
  | JStr s => negb (s =? "")
  | JArr _ | JObj _ => true
  end.

Definition typeof (v : JsVal) : string :=
  match v with
  | JUndefined => "undefined"
  | JNull => "object"
  | JBool _ => "boolean"
  | JInt _ | JNaN | JNonInt => "number"
  | JStr _ => "string"
  | JArr _ | JObj _ => "object"
  end.

Fixpoint own_prop (k : string) (props : list (string * JsVal)) : option JsVal :=
  match props with
  | [] => None
  | (k', v) :: rest => if k' =? k then Some v else own_prop k rest
  end.

(** [v.k] for the property names the server reads ([code], [uid], [move],
    [from], [to], [promo], [isCastle], [isEnPassant], [isDoublePawnPush]):
    none of them is defined on a primitive or on an array. Reading a
    property of [null] or [undefined] throws instead, see [destructure]. *)
Definition get_prop (v : JsVal) (k : string) : JsVal :=
  match v with
  | JObj props => default JUndefined (own_prop k props)
  | _ => JUndefined
  end.

(** [a || b] *)
Definition js_or (a b : JsVal) : JsVal := if truthy a then a else b.

Definition is_undefined (v : JsVal) : bool :=
  match v with JUndefined => true | _ => false end.

Definition is_null (v : JsVal) : bool :=
  match v with JNull => true | _ => false end.

(** [Number.isInteger(v)] *)
Definition isInteger (v : JsVal) : bool :=
  match v with JInt _ => true | _ => false end.

(** The content of a value known to be a string, resp. an integer. *)
Definition str_of (v : JsVal) : string :=
  match v with JStr s => s | _ => "" end.

Definition int_of (v : JsVal) : Z :=
  match v with JInt z => z | _ => 0%Z end.

(** [l.includes(v)] for an array of strings. *)
Definition includes (l : list string) (v : JsVal) : bool :=
  match v with
  | JStr s => bool_decide (s ∈ l)
  | _ => false
  end.

(** A parameter default: [function f(payload = {})]. *)
Definition default_param (v d : JsVal) : JsVal :=
  match v with JUndefined => d | _ => v end.

(** [String.prototype.toLowerCase] on the ASCII range. *)
Definition lower_ascii (a : ascii) : ascii :=
  let n := nat_of_ascii a in
  if (65 <=? n)%nat && (n <=? 90)%nat then ascii_of_nat (n + 32) else a.

Fixpoint toLowerCase (s : string) : string :=
  match s with
  | EmptyString => EmptyString
  | String a rest => String (lower_ascii a) (toLowerCase rest)
  end.

(** ** The data model (the typedefs at the end of the source) *)

Record PlayerInfo : Type := {
  uid : string;
  color : string;
  socketId : string;
}.

Record GameState : Type := {
  lastMove : JsVal;
  boardFEN : string;
}.

Record RoomState : Type := {
  code : string;
  players : list PlayerInfo;
  state : GameState;
  sideToMove : string;
  lastActive : Z;
}.

(** [socket.data.membership = { code, uid }] *)
Module Membership.
Record t : Type := { code : string; uid : string }.
End Membership.

(** Where an emit goes: [socket.emit] and [io.to(socketId)] reach one socket,
    [io.to(code)] reaches the sockets that joined the channel [code]. *)
Inductive Target : Type :=
  | ToSocket (id : string)
  | ToChannel (name : string).

Record Emit : Type := {
  target : Target;
  event : string;
  args : JsVal;
}.

Record Server : Type := {
  rooms : gmap string RoomState;
  memberships : gmap string Membership.t;
  joined : gset (string * string);
  outbox : list Emit;
}.

Definition set_socketId (id : string) (p : PlayerInfo) : PlayerInfo :=
  {| uid := uid p; color := color p; socketId := id |}.

Definition set_lastMove (m : JsVal) (g : GameState) : GameState :=
  {| lastMove := m; boardFEN := boardFEN g |}.

Definition set_players (l : list PlayerInfo) (r : RoomState) : RoomState :=
  {| code := code r; players := l; state := state r;
     sideToMove := sideToMove r; lastActive := lastActive r |}.

Definition set_state (g : GameState) (r : RoomState) : RoomState :=
  {| code := code r; players := players r; state := g;
     sideToMove := sideToMove r; lastActive := lastActive r |}.

Definition set_sideToMove (s : string) (r : RoomState) : RoomState :=
  {| code := code r; players := players r; state := state r;
     sideToMove := s; lastActive := lastActive r |}.

Definition set_lastActive (t : Z) (r : RoomState) : RoomState :=
  {| code := code r; players := players r; state := state r;
     sideToMove := sideToMove r; lastActive := t |}.

Definition with_rooms (f : gmap string RoomState → gmap string RoomState)
    (s : Server) : Server :=
  {| rooms := f (rooms s); memberships := memberships s;
     joined := joined s; outbox := outbox s |}.

Definition with_memberships
    (f : gmap string Membership.t → gmap string Membership.t)
    (s : Server) : Server :=
  {| rooms := rooms s; memberships := f (memberships s);
     joined := joined s; outbox := outbox s |}.

Definition with_joined (f : gset (string * string) → gset (string * string))
    (s : Server) : Server :=
  {| rooms := rooms s; memberships := memberships s;
     joined := f (joined s); outbox := outbox s |}.

Definition with_outbox (f : list Emit → list Emit) (s : Server) : Server :=
  {| rooms := rooms s; memberships := memberships s;
     joined := joined s; outbox := f (outbox s) |}.

(** ** Handlers as state-and-exception computations *)

Inductive Res (A : Type) : Type :=
  | Ok (a : A)
  | Throw (message : string).
Arguments Ok {A} a.
Arguments Throw {A} message.

Definition M (A : Type) : Type := Server → Res A * Server.

#[global] Instance M_ret : MRet M := λ A a s, (Ok a, s).

#[global] Instance M_bind : MBind M := λ A B f m s,
  match m s with
  | (Ok a, s') => f a s'
  | (Throw e, s') => (Throw e, s')
  end.

Definition gets {A : Type} (f : Server → A) : M A := λ s, (Ok (f s), s).

Definition modify (f : Server → Server) : M unit := λ s, (Ok (), f s).

Definition throw {A : Type} (message : string) : M A := λ s, (Throw message, s).

Definition throw_if (b : bool) (message : string) : M unit :=
  if b then throw message else mret ().

Definition lift_res {A : Type} (r : Res A) : M A := λ s, (r, s).

Definition emit (t : Target) (ev : string) (v : JsVal) : M unit :=
  modify (with_outbox (λ o, (o ++ [{| target := t; event := ev; args := v |}])%list)).

(** [rooms[key]] holds the room object [r] after its mutation. *)
Definition store_room (key : string) (r : RoomState) : M unit :=
  modify (with_rooms (insert key r)).

(** [socket.join(channel)] and [socket.leave(channel)] *)
Definition socket_join (socket channel : string) : M unit :=
  modify (with_joined (λ j, {[ (socket, channel) ]} ∪ j)).

Definition socket_leave (socket channel : string) : M unit :=
  modify (with_joined (λ j, j ∖ {[ (socket, channel) ]})).

(** [const { first, ... } = v]: a [TypeError] on [null] and [undefined],
    with the message Node gives it. *)
Definition destructure (v : JsVal) (first name : string) : M unit :=
  match v with
  | JNull =>
      throw ("Cannot destructure property '" ++ first ++ "' of '" ++ name
             ++ "' as it is null.")
  | JUndefined =>
      throw ("Cannot destructure property '" ++ first ++ "' of '" ++ name
             ++ "' as it is undefined.")
  | _ => mret ()
  end.

(** ** The server's functions *)

Definition initialState : GameState :=
  {| lastMove := JNull; boardFEN := "startpos" |}.

(** [createRoom(code)], with the reading of [Date.now()]. *)
Definition createRoom (code' : string) (now : Z) : RoomState :=
  {| code := code'; players := []; state := initialState;
     sideToMove := "WHITE"; lastActive := now |}.

(** The game state as it is serialised in a payload. *)
Definition state_val (g : GameState) : JsVal :=
  JObj [("lastMove", lastMove g); ("boardFEN", JStr (boardFEN g))].

Definition room_state_payload (room : RoomState) : JsVal :=
  JObj [("code", JStr (code room));
        ("players",
         JArr (map (λ p, JObj [("uid", JStr (uid p)); ("color", JStr (color p))])
                   (players room)));
        ("sideToMove", JStr (sideToMove room));
        ("state", state_val (state room))].

Definition emitRoomState (room : RoomState) : M unit :=
  emit (ToChannel (code room)) "room_state" (room_state_payload room).

Definition handleDisconnect (socket : string) (now : Z) : M unit :=
  membership ← gets (λ s, memberships s !! socket);
  match membership with
  | None => mret ()
  | Some membership =>
    room ← gets (λ s, rooms s !! Membership.code membership);
    match room with
    | None => mret ()
    | Some room =>
      room ← match list_find (λ p, uid p = Membership.uid membership)
                             (players room) with
             | Some (index, _) =>
                 let room :=
                   set_lastActive now
                     (set_players (delete index (players room)) room) in
                 emitRoomState room;;
                 mret room
             | None => mret room
             end;
      let room :=
        if (length (players room) =? 0)%nat
        then set_state initialState (set_sideToMove "WHITE" room)
        else room in
      store_room (Membership.code membership) room;;
      modify (with_memberships (delete socket))
    end
  end.

(** [now_leave] is the clock read by the implicit leave of the previous
    room, [now] the later reading of the join itself. *)
Definition handleJoinRoom (socket : string) (payload : JsVal)
    (now_leave now : Z) : M unit :=
  let payload := default_param payload (JObj []) in
  destructure payload "code" "payload";;
  let code' := get_prop payload "code" in
  let uid' := get_prop payload "uid" in
  throw_if (negb (truthy code') || negb (typeof code' =? "string"))
    "Room code is required";;
  throw_if (negb (truthy uid') || negb (typeof uid' =? "string"))
    "User id is required";;
  let code' := str_of code' in
  let uid' := str_of uid' in
  room ← gets (λ s, rooms s !! code');
  match room with
  | None => throw "Room not found"
  | Some room =>
    let existing := list_find (λ p, uid p = uid') (players room) in
    throw_if (negb (bool_decide (is_Some existing))
              && (2 <=? length (players room))%nat)
      "Room is full";;
    previousMembership ← gets (λ s, memberships s !! socket);
    match previousMembership with
    | Some previousMembership =>
        if negb (Membership.code previousMembership =? code')
        then socket_leave socket (Membership.code previousMembership);;
             handleDisconnect socket now_leave
        else mret ()
    | None => mret ()
    end;;
    (* [room] is a reference: its contents are those of [rooms[code]] now *)
    room ← gets (λ s, default room (rooms s !! code'));
    let '(player, room) :=
      match existing with
      | Some (index, existing) =>
          let player := set_socketId socket existing in
          (player, set_players (<[index := player]> (players room)) room)
      | None =>
          let color' :=
            if (length (players room) =? 0)%nat then "WHITE" else "BLACK" in
          let player := {| uid := uid'; color := color'; socketId := socket |} in
          (player, set_players (players room ++ [player])%list room)
      end in
    modify (with_memberships
              (insert socket {| Membership.code := code'; Membership.uid := uid' |}));;
    socket_join socket code';;
    let room := set_lastActive now room in
    store_room code' room;;
    emit (ToSocket socket) "room_joined"
      (JObj [("code", JStr (code room));
             ("color", JStr (toLowerCase (color player)))]);;
    (if (length (players room) =? 2)%nat && negb (bool_decide (is_Some existing))
     then match list_find (λ p, uid p ≠ uid') (players room) with
          | Some (_, otherPlayer) =>
              emit (ToSocket (socketId otherPlayer)) "opponent_joined" (JObj [])
          | None => mret ()
          end
     else mret ());;
    emitRoomState room
  end.

(** [validateMovePayload(move)]: the first violated rule throws. *)
Definition validateMovePayload (move : JsVal) : Res unit :=
  let from := get_prop move "from" in
  let to := get_prop move "to" in
  let promo := get_prop move "promo" in
  let isCastle := get_prop move "isCastle" in
  let isEnPassant := get_prop move "isEnPassant" in
  let isDoublePawnPush := get_prop move "isDoublePawnPush" in
  if negb (isInteger from) || negb (isInteger to)
  then Throw "Move coordinates must be integers"
  else if (int_of from <? 0)%Z || (63 <? int_of from)%Z
          || (int_of to <? 0)%Z || (63 <? int_of to)%Z
  then Throw "Squares must be between 0 and 63"
  else if (int_of from =? int_of to)%Z
  then Throw "From and to squares must differ"
  else if negb (is_undefined promo) && negb (is_null promo)
          && (negb (typeof promo =? "string")
              || negb (includes ["Q"; "R"; "B"; "N"] promo))
  then Throw "Promotion piece must be Q, R, B, or N"
  else if negb (is_undefined isCastle) && negb (typeof isCastle =? "boolean")
  then Throw "isCastle must be boolean"
  else if negb (is_undefined isEnPassant)
          && negb (typeof isEnPassant =? "boolean")
  then Throw "isEnPassant must be boolean"
  else if negb (is_undefined isDoublePawnPush)
          && negb (typeof isDoublePawnPush =? "boolean")
  then Throw "isDoublePawnPush must be boolean"
  else Ok ().

(** [applyMoveServer(room, move)]: the room after the two assignments. *)
Definition applyMoveServer (room : RoomState) (move : JsVal) : RoomState :=
  let lastMove' :=
    JObj [("from", get_prop move "from");
          ("to", get_prop move "to");
          ("promo", js_or (get_prop move "promo") JNull);
          ("isCastle", js_or (get_prop move "isCastle") (JBool false));
          ("isEnPassant", js_or (get_prop move "isEnPassant") (JBool false));
          ("isDoublePawnPush",
           js_or (get_prop move "isDoublePawnPush") (JBool false))] in
  set_sideToMove (if sideToMove room =? "WHITE" then "BLACK" else "WHITE")
    (set_state (set_lastMove lastMove' (state room)) room).

Definition validateLegalMove (state' : GameState) (move : JsVal) : bool := true.

Definition handleMove (socket : string) (payload : JsVal) (now : Z) : M unit :=
  membership ← gets (λ s, memberships s !! socket);
  match membership with
  | None => throw "You are not joined to a room"
  | Some membership =>
    let payload := default_param payload (JObj []) in
    destructure payload "code" "payload";;
    let code' := get_prop payload "code" in
    let move := get_prop payload "move" in
    throw_if (negb (truthy code') || negb (typeof code' =? "string"))
      "Room code is required";;
    let code' := str_of code' in
    throw_if (negb (Membership.code membership =? code'))
      "You are not part of this room";;
    throw_if (negb (truthy move) || negb (typeof move =? "object"))
      "Move payload is required";;
    room ← gets (λ s, rooms s !! code');
    match room with
    | None => throw "Room not found"
    | Some room =>
      match list_find (λ p, uid p = Membership.uid membership) (players room) with
      | None => throw "Player not found in room"
      | Some (_, player) =>
        throw_if (negb (color player =? sideToMove room)) "Not your turn";;
        lift_res (validateMovePayload move);;
        throw_if (negb (validateLegalMove (state room) move)) "Illegal move";;
        let room := applyMoveServer room move in
        emit (ToChannel code') "move_applied"
          (JObj [("move", move);
                 ("sideToMove", JStr (sideToMove room));
                 ("state", state_val (state room))]);;
        store_room code' (set_lastActive now room)
      end
    end
  end.

(** ** Session creation and reclamation *)

Definition chars : string := "ABCDEFGHIJKLMNOPQRSTUVWXYZ".

(** [genCode()]. [rnd i] stands for the sample of [Math.random()] drawn at
    iteration [i]; [Math.floor(Math.random() * chars.length)] ranges over
    0..25, which is the sample reduced modulo the length of [chars]. *)
Definition genCode (rnd : nat → nat) : string :=
  string_of_list_ascii
    (map (λ i, default "A"%char (String.get (rnd i mod String.length chars) chars))
         (seq 0 6)).

(** The loop of [POST /room]: the first generated code that names no room.
    [attempts] are the samples of the successive calls of [genCode]; the
    request answers once one of them is unused. *)
Fixpoint fresh_code (attempts : list (nat → nat)) (rs : gmap string RoomState)
    : option string :=
  match attempts with
  | [] => None
  | rnd :: rest =>
      let code' := genCode rnd in
      match rs !! code' with
      | Some _ => fresh_code rest rs
      | None => Some code'
      end
  end.

Definition post_room (attempts : list (nat → nat)) (now : Z) (s : Server)
    : option string * Server :=
  match fresh_code attempts (rooms s) with
  | Some code' => (Some code', with_rooms (insert code' (createRoom code' now)) s)
  | None => (None, s)
  end.

Definition TEN_MINUTES : Z := 10 * 60 * 1000.

(** The body of the [setInterval] callback. *)
Definition sweep (now : Z) (s : Server) : Server :=
  with_rooms
    (filter (λ kv, ¬ (length (players kv.2) = 0%nat
                      ∧ (now - lastActive kv.2 > TEN_MINUTES)%Z)))
    s.

(** ** The event gateway *)

Definition error_msg (socket message fallback : string) : Emit :=
  {| target := ToSocket socket; event := "error_msg";
     args := JObj [("message",
                    js_or (JStr message) (JStr fallback))] |}.

(** [socket.on("join_room", ...)] with its [try]/[catch]. *)
Definition on_join_room (socket : string) (payload : JsVal)
    (now_leave now : Z) (s : Server) : Server :=
  match handleJoinRoom socket payload now_leave now s with
  | (Ok _, s') => s'
  | (Throw message, s') =>
      with_outbox (λ o, (o ++ [error_msg socket message "Failed to join room"])%list) s'
  end.

(** [socket.on("move", ...)] with its [try]/[catch]. *)
Definition on_move (socket : string) (payload : JsVal) (now : Z)
    (s : Server) : Server :=
  match handleMove socket payload now s with
  | (Ok _, s') => s'
  | (Throw message, s') =>
      with_outbox (λ o, (o ++ [error_msg socket message "Failed to apply move"])%list) s'
  end.

(** [socket.on("disconnect", ...)]. socket.io has taken the socket out of
    every channel before the listener runs; once it has run the socket
    object, and with it [socket.data], is gone. *)
Definition on_disconnect (socket : string) (now : Z) (s : Server) : Server :=
  let s := with_joined (filter (λ sc, sc.1 ≠ socket)) s in
  let s := (handleDisconnect socket now s).2 in
  with_memberships (delete socket) s.

Inductive Event : Type :=
  | PostRoom (attempts : list (nat → nat)) (now : Z)
  | JoinRoom (socket : string) (payload : JsVal) (now_leave now : Z)
  | Move (socket : string) (payload : JsVal) (now : Z)
  | Disconnect (socket : string) (now : Z)
  | Sweep (now : Z).

Definition dispatch (s : Server) (e : Event) : Server :=
  match e with
  | PostRoom attempts now => (post_room attempts now s).2
  | JoinRoom socket payload now_leave now =>
      on_join_room socket payload now_leave now s
  | Move socket payload now => on_move socket payload now s
  | Disconnect socket now => on_disconnect socket now s
  | Sweep now => sweep now s
  end.

(** The server at start-up: [rooms = Object.create(null)], nobody connected. *)
Definition init : Server :=
  {| rooms := ∅; memberships := ∅; joined := ∅; outbox := [] |}.

Definition run (events : list Event) : Server := foldl dispatch init events.

Definition reachable (s : Server) : Prop := ∃ events, s = run events.

(** ** The older copy of the server

    [server/index.js] is an earlier state of the same file. It has the
    same [handleDisconnect], [createRoom], [genCode] and sweep; it differs
    in that [validateMovePayload] looks at the squares only, that
    [applyMoveServer] stores a copy of the move as it came, that a join
    emits [room_state] and nothing else, and that [error_msg] carries the
    message itself rather than an object. *)
Module ServerIndex.

(** [{ ...v }]: the own enumerable properties of [v]. *)
Definition spread (v : JsVal) : JsVal :=
  match v with
  | JObj props => JObj props
  | JArr items => JObj (imap (λ i x, (pretty i, x)) items)
  | JStr s =>
      JObj (imap (λ i a, (pretty i, JStr (String a EmptyString)))
                 (list_ascii_of_string s))
  | _ => JObj []
  end.

Definition validateMovePayload (move : JsVal) : Res unit :=
  let from := get_prop move "from" in
  let to := get_prop move "to" in
  if negb (isInteger from) || negb (isInteger to)
  then Throw "Move coordinates must be integers"
  else if (int_of from <? 0)%Z || (63 <? int_of from)%Z
          || (int_of to <? 0)%Z || (63 <? int_of to)%Z
  then Throw "Squares must be between 0 and 63"
  else if (int_of from =? int_of to)%Z
  then Throw "From and to squares must differ"
  else Ok ().

Definition applyMoveServer (room : RoomState) (move : JsVal) : RoomState :=
  set_sideToMove (if sideToMove room =? "WHITE" then "BLACK" else "WHITE")
    (set_state (set_lastMove (spread move) (state room)) room).

Definition handleJoinRoom (socket : string) (payload : JsVal)
    (now_leave now : Z) : M unit :=
  let payload := default_param payload (JObj []) in
  destructure payload "code" "payload";;
  let code' := get_prop payload "code" in
  let uid' := get_prop payload "uid" in
  throw_if (negb (truthy code') || negb (typeof code' =? "string"))
    "Room code is required";;
  throw_if (negb (truthy uid') || negb (typeof uid' =? "string"))
    "User id is required";;
  let code' := str_of code' in
  let uid' := str_of uid' in
  room ← gets (λ s, rooms s !! code');
  match room with
  | None => throw "Room not found"
  | Some room =>
    let existing := list_find (λ p, uid p = uid') (players room) in
    throw_if (negb (bool_decide (is_Some existing))
              && (2 <=? length (players room))%nat)
      "Room is full";;
    previousMembership ← gets (λ s, memberships s !! socket);
    match previousMembership with
    | Some previousMembership =>
        if negb (Membership.code previousMembership =? code')
        then socket_leave socket (Membership.code previousMembership);;
             handleDisconnect socket now_leave
        else mret ()
    | None => mret ()
    end;;
    room ← gets (λ s, default room (rooms s !! code'));
    let room :=
      match existing with
      | Some (index, existing) =>
          set_players (<[index := set_socketId socket existing]> (players room)) room
      | None =>
          let color' :=
            if (length (players room) =? 0)%nat then "WHITE" else "BLACK" in
          let player := {| uid := uid'; color := color'; socketId := socket |} in
          set_players (players room ++ [player])%list room
      end in
    modify (with_memberships
              (insert socket {| Membership.code := code'; Membership.uid := uid' |}));;
    socket_join socket code';;
    let room := set_lastActive now room in
    store_room code' room;;
    emitRoomState room
  end.

Definition handleMove (socket : string) (payload : JsVal) (now : Z) : M unit :=
  membership ← gets (λ s, memberships s !! socket);
  match membership with
  | None => throw "You are not joined to a room"
  | Some membership =>
    let payload := default_param payload (JObj []) in
    destructure payload "code" "payload";;
    let code' := get_prop payload "code" in
    let move := get_prop payload "move" in
    throw_if (negb (truthy code') || negb (typeof code' =? "string"))
      "Room code is required";;
    let code' := str_of code' in
    throw_if (negb (Membership.code membership =? code'))
      "You are not part of this room";;
    throw_if (negb (truthy move) || negb (typeof move =? "object"))
      "Move payload is required";;
    room ← gets (λ s, rooms s !! code');
    match room with
    | None => throw "Room not found"
    | Some room =>
      match list_find (λ p, uid p = Membership.uid membership) (players room) with
      | None => throw "Player not found in room"
      | Some (_, player) =>
        throw_if (negb (color player =? sideToMove room)) "Not your turn";;
        lift_res (validateMovePayload move);;
        throw_if (negb (validateLegalMove (state room) move)) "Illegal move";;
        let room := applyMoveServer room move in
        emit (ToChannel code') "move_applied"
          (JObj [("move", move);
                 ("sideToMove", JStr (sideToMove room));
                 ("state", state_val (state room))]);;
        store_room code' (set_lastActive now room)
      end
    end
  end.

Definition error_msg (socket message fallback : string) : Emit :=
  {| target := ToSocket socket; event := "error_msg";
     args := js_or (JStr message) (JStr fallback) |}.

End ServerIndex.

(** Well-formed requests, as a client library sends them. *)
Definition join_payload (c u : string) : JsVal :=
  JObj [("code", JStr c); ("uid", JStr u)].

Definition move_payload (c : string) (move : JsVal) : JsVal :=
  JObj [("code", JStr c); ("move", move)].

(** ** Derived forms of the handlers

    Closed descriptions of what the handlers do to the state; each handler
    is shown equal to its description below, and the properties are then
    read off the descriptions. *)

(** What leaving does to the room object, and what it emits. *)
Definition vacate (u : string) (now : Z) (room : RoomState)
    : RoomState * list Emit :=
  let '(room, out) :=
    match list_find (λ p, uid p = u) (players room) with
    | Some (index, _) =>
        let room :=
          set_lastActive now (set_players (delete index (players room)) room) in
        (room, [{| target := ToChannel (code room); event := "room_state";
                   args := room_state_payload room |}])
    | None => (room, [])
    end in
  (if (length (players room) =? 0)%nat
   then set_state initialState (set_sideToMove "WHITE" room)
   else room, out).

Definition leave (socket : string) (now : Z) (s : Server) : Server :=
  match memberships s !! socket with
  | None => s
  | Some m =>
      match rooms s !! Membership.code m with
      | None => s
      | Some room =>
          {| rooms := <[Membership.code m := (vacate (Membership.uid m) now room).1]> (rooms s);
             memberships := delete socket (memberships s);
             joined := joined s;
             outbox := (outbox s ++ (vacate (Membership.uid m) now room).2)%list |}
      end
  end.

(** A join request that passes the checks of its payload: [code] and
    [uid] are non-empty strings. *)
Definition join_request (payload : JsVal) (c u : string) : Prop :=
  get_prop payload "code" = JStr c ∧ c ≠ ""
  ∧ get_prop payload "uid" = JStr u ∧ u ≠ "".

(** The state in which the join proper runs: the socket has left the room
    of its previous membership when that was another room. *)
Definition pre_join (socket c : string) (now_leave : Z) (s : Server) : Server :=
  match memberships s !! socket with
  | Some pm =>
      if negb (Membership.code pm =? c)
      then leave socket now_leave
             (with_joined (λ j, j ∖ {[ (socket, Membership.code pm) ]}) s)
      else s
  | None => s
  end.

(** The player object of the joiner and the room that holds it. *)
Definition seat (socket u : string) (room : RoomState)
    : PlayerInfo * RoomState :=
  match list_find (λ p, uid p = u) (players room) with
  | Some (index, existing) =>
      let player := set_socketId socket existing in
      (player, set_players (<[index := player]> (players room)) room)
  | None =>
      let player :=
        {| uid := u;
           color := if (length (players room) =? 0)%nat then "WHITE" else "BLACK";
           socketId := socket |} in
      (player, set_players (players room ++ [player])%list room)
  end.

Definition opponent_joined (id : string) : Emit :=
  {| target := ToSocket id; event := "opponent_joined"; args := JObj [] |}.

(** The notifications of a join, in the order they are emitted. *)
Definition join_emits (socket u : string) (old : list PlayerInfo)
    (player : PlayerInfo) (room : RoomState) : list Emit :=
  ([{| target := ToSocket socket; event := "room_joined";
       args := JObj [("code", JStr (code room));
                     ("color", JStr (toLowerCase (color player)))] |}]
   ++ (if (length (players room) =? 2)%nat
          && negb (bool_decide (is_Some (list_find (λ p, uid p = u) old)))
       then match list_find (λ p, uid p ≠ u) (players room) with
            | Some (_, otherPlayer) =>
                [{| target := ToSocket (socketId otherPlayer);
                    event := "opponent_joined"; args := JObj [] |}]
            | None => []
            end
       else [])
   ++ [{| target := ToChannel (code room); event := "room_state";
          args := room_state_payload room |}])%list.

Definition joined_state (socket c u : string) (now_leave now : Z)
    (room : RoomState) (s : Server) : Server :=
  let s1 := pre_join socket c now_leave s in
  let room' := set_lastActive now (seat socket u room).2 in
  {| rooms := <[c := room']> (rooms s1);
     memberships :=
       <[socket := {| Membership.code := c; Membership.uid := u |}]> (memberships s1);
     joined := {[ (socket, c) ]} ∪ joined s1;
     outbox := (outbox s1
                ++ join_emits socket u (players room) (seat socket u room).1 room')%list |}.

Definition move_applied (move : JsVal) (room : RoomState) : JsVal :=
  JObj [("move", move);
        ("sideToMove", JStr (sideToMove room));
        ("state", state_val (state room))].

Definition moved_state (c : string) (move : JsVal) (now : Z)
    (room : RoomState) (s : Server) : Server :=
  {| rooms := <[c := set_lastActive now (applyMoveServer room move)]> (rooms s);
     memberships := memberships s;
     joined := joined s;
     outbox := (outbox s
                ++ [{| target := ToChannel c; event := "move_applied";
                       args := move_applied move (applyMoveServer room move) |}])%list |}.

(** A move request that reaches the checks of its move: sent on a socket
    with a membership for the room it names, by the participant whose turn
    it is. *)
Record move_request (socket : string) (payload : JsVal) (s : Server)
    (c : string) (move : JsVal) (room : RoomState) : Prop := {
  mr_membership :
    ∃ m, memberships s !! socket = Some m ∧ Membership.code m = c
         ∧ ∃ i player, list_find (λ p, uid p = Membership.uid m) (players room)
                       = Some (i, player)
                       ∧ color player = sideToMove room;
  mr_code : get_prop payload "code" = JStr c ∧ c ≠ "";
  mr_move : get_prop payload "move" = move;
  mr_room : rooms s !! c = Some room;
}.

(** ** The room invariant *)

Definition canonical (side : string) : Prop := side = "WHITE" ∨ side = "BLACK".

Record room_ok (key : string) (r : RoomState) : Prop := {
  ok_code : code r = key;
  ok_key : String.length key = 6%nat;
  ok_count : (length (players r) ≤ 2)%nat;
  ok_uids : NoDup (uid <$> players r);
  ok_ids : Forall (λ p, uid p ≠ "") (players r);
  ok_colors : Forall (λ p, canonical (color p)) (players r);
  ok_side : canonical (sideToMove r);
  ok_empty : players r = [] → state r = initialState ∧ sideToMove r = "WHITE";
}.

Definition Inv (s : Server) : Prop :=
  ∀ k r, rooms s !! k = Some r → room_ok k r.

(** ** The notions of the specification *)

(** [n] move requests in a row, each accepted, all naming the room [c]. *)
Inductive accepted_moves (c : string) : nat → Server → Server → Prop :=
  | accepted_none s : accepted_moves c 0 s s
  | accepted_next n s socket payload now s1 s2 :
      get_prop payload "code" = JStr c →
      handleMove socket payload now s = (Ok (), s1) →
      accepted_moves c n s1 s2 →
      accepted_moves c (S n) s s2.

Definition other_side (side : string) : string :=
  if side =? "WHITE" then "BLACK" else "WHITE".

(** The rules of the specification, in its words. They say "present" of an
    optional property; whether a property given as [null] is present they
    do not say, so the rules take the reading as a parameter. *)
Definition given (v : JsVal) : bool := negb (is_undefined v).

Definition given_non_null (v : JsVal) : bool :=
  negb (is_undefined v) && negb (is_null v).

Definition not_integer (v : JsVal) : bool := negb (isInteger v).

Definition outside_board (v : JsVal) : bool :=
  match v with
  | JInt z => (z <? 0)%Z || (63 <? z)%Z
  | _ => false
  end.

Definition same_square (a b : JsVal) : bool :=
  match a, b with
  | JInt x, JInt y => (x =? y)%Z
  | _, _ => false
  end.

Definition is_piece (v : JsVal) : bool :=
  match v with
  | JStr s => bool_decide (s = "Q" ∨ s = "R" ∨ s = "B" ∨ s = "N")
  | _ => false
  end.

Definition is_boolean (v : JsVal) : bool :=
  match v with JBool _ => true | _ => false end.

Definition bad_squares (move : JsVal) : bool :=
  not_integer (get_prop move "from") || not_integer (get_prop move "to")
  || outside_board (get_prop move "from") || outside_board (get_prop move "to")
  || same_square (get_prop move "from") (get_prop move "to").

Definition bad_promo (present : JsVal → bool) (move : JsVal) : bool :=
  present (get_prop move "promo") && negb (is_piece (get_prop move "promo")).

Definition bad_flag (present : JsVal → bool) (move : JsVal) (k : string) : bool :=
  present (get_prop move k) && negb (is_boolean (get_prop move k)).

(** Malformed as the claim has it, under one reading of "present" for the
    four optional properties. *)
Definition malformed_as_specified (present : JsVal → bool) (move : JsVal) : bool :=
  bad_squares move || bad_promo present move
  || bad_flag present move "isCastle" || bad_flag present move "isEnPassant"
  || bad_flag present move "isDoublePawnPush".

(** Malformed as the code has it: a [promo] of [null] counts as absent, a
    flag of [null] as present. *)
Definition malformed (move : JsVal) : bool :=
  bad_squares move || bad_promo given_non_null move
  || bad_flag given move "isCastle" || bad_flag given move "isEnPassant"
  || bad_flag given move "isDoublePawnPush".

(** The claim as it is stated, under a reading of "present". *)
Definition validation_as_specified (present : JsVal → bool) : Prop :=
  ∀ socket payload now s c move room,
    move_request socket payload s c move room →
    (∃ message, (handleMove socket payload now s).1 = Throw message)
    ↔ malformed_as_specified present move = true.

(** The messages of the errors that reject the move itself. *)
Definition validation_messages : list string :=
  ["Move payload is required";
   "Move coordinates must be integers";
   "Squares must be between 0 and 63";
   "From and to squares must differ";
   "Promotion piece must be Q, R, B, or N";
   "isCastle must be boolean";
   "isEnPassant must be boolean";
   "isDoublePawnPush must be boolean"].

(** The normal form of a move, in the words of the specification: the
    squares copied, [promo] the submitted value or [null] when absent, each
    flag the submitted boolean or [false] when absent. *)
Definition normalized (move : JsVal) : JsVal :=
  let or_else (v d : JsVal) := if given v then v else d in
  JObj [("from", get_prop move "from");
        ("to", get_prop move "to");
        ("promo", or_else (get_prop move "promo") JNull);
        ("isCastle", or_else (get_prop move "isCastle") (JBool false));
        ("isEnPassant", or_else (get_prop move "isEnPassant") (JBool false));
        ("isDoublePawnPush",
         or_else (get_prop move "isDoublePawnPush") (JBool false))].

(** ** Runs used as examples *)

(** A run used to exercise the statements below: one room, two players,
    one move by white. *)
Definition opening : list Event :=
  [PostRoom [λ _, 0%nat] 0;
   JoinRoom "s1" (join_payload "AAAAAA" "u1") 1 1;
   JoinRoom "s2" (join_payload "AAAAAA" "u2") 2 2;
   Move "s1" (move_payload "AAAAAA" (JObj [("from", JInt 12); ("to", JInt 28)])) 3].

Definition two_players : list Event := take 3 opening.

Definition reply : JsVal :=
  move_payload "AAAAAA" (JObj [("from", JInt 52); ("to", JInt 36)]).

(** White leaves a room of two and a third identity joins it. *)
Definition white_leaves : list Event :=
  (two_players
   ++ [Disconnect "s1" 4; JoinRoom "s3" (join_payload "AAAAAA" "u3") 5 5])%list.

(** The room of [two_players]: both seats taken, white to move. *)
Definition lobby : RoomState :=
  {| code := "AAAAAA";
     players := [{| uid := "u1"; color := "WHITE"; socketId := "s1" |};
                 {| uid := "u2"; color := "BLACK"; socketId := "s2" |}];
     state := initialState; sideToMove := "WHITE"; lastActive := 2 |}.

(** A pawn push whose [promo] is spelled out as [null], and one whose
    [isCastle] is. *)
Definition promo_null : JsVal :=
  JObj [("from", JInt 12); ("to", JInt 28); ("promo", JNull)].

Definition castle_null : JsVal :=
  JObj [("from", JInt 12); ("to", JInt 28); ("isCastle", JNull)].

(** ** Tactics for the handlers *)

Ltac unfold_M :=
  unfold mbind, M_bind, mret, M_ret, gets, modify, throw_if, throw, lift_res,
    emitRoomState, emit, store_room, socket_join, socket_leave, destructure in *.

Ltac run_M :=
  repeat (first [progress unfold_M | case_match]; simplify_eq/=; try done).

(** * Proofs *)

(** ** The handlers and their derived forms *)

Lemma handleDisconnect_eq socket now s :
  handleDisconnect socket now s = (Ok (), leave socket now s).
Proof.
  unfold handleDisconnect, leave, vacate.
  run_M; unfold with_rooms, with_memberships; simpl; by rewrite app_nil_r.
Qed.

Lemma leave_rooms_ne socket now s k :
  (∀ m, memberships s !! socket = Some m → Membership.code m ≠ k) →
  rooms (leave socket now s) !! k = rooms s !! k.
Proof.
  intros Hne. unfold leave.
  destruct (memberships s !! socket) as [m|] eqn:Hm; [|done].
  destruct (rooms s !! Membership.code m) eqn:Hr; [|done].
  simpl. rewrite lookup_insert_ne; [done|]. by apply Hne.
Qed.

Lemma pre_join_rooms socket c now_leave s :
  rooms (pre_join socket c now_leave s) !! c = rooms s !! c.
Proof.
  unfold pre_join.
  destruct (memberships s !! socket) as [pm|] eqn:Hm; [|done].
  destruct (Membership.code pm =? c) eqn:Hc; simpl; [done|].
  rewrite leave_rooms_ne; [done|].
  simpl. intros m Hm' Heq. rewrite Hm in Hm'. simplify_eq.
  by rewrite String.eqb_refl in Hc.
Qed.

Lemma join_request_inv payload c u :
  join_request payload c u →
  default_param payload (JObj []) = payload
  ∧ (∃ props, payload = JObj props).
Proof.
  intros (Hc & _). destruct payload; simpl in *; try discriminate.
  split; [done|]. by eexists.
Qed.

Lemma nonempty_eqb (x : string) : x ≠ "" → (x =? "") = false.
Proof. intros H. by apply String.eqb_neq. Qed.

(** A well-formed join of a room that exists either finds it full or
    completes. *)
Lemma handleJoinRoom_eq socket payload now_leave now s c u room :
  join_request payload c u →
  rooms s !! c = Some room →
  handleJoinRoom socket payload now_leave now s =
    if negb (bool_decide (is_Some (list_find (λ p, uid p = u) (players room))))
       && (2 <=? length (players room))%nat
    then (Throw "Room is full", s)
    else (Ok (), joined_state socket c u now_leave now room s).
Proof.
  intros Hreq Hroom.
  destruct (join_request_inv _ _ _ Hreq) as [Hdef [props ->]].
  destruct Hreq as (Hc & Hcne & Hu & Hune).
  unfold handleJoinRoom. rewrite Hdef. simpl in Hc, Hu.
  unfold_M. simpl. rewrite Hc, Hu. simpl.
  rewrite (nonempty_eqb _ Hcne), (nonempty_eqb _ Hune). simpl.
  rewrite Hroom.
  destruct (negb _ && _) eqn:Hfull; [done|].
  unfold_M; simpl.
  pose proof (pre_join_rooms socket c now_leave s) as Hpre.
  unfold joined_state, join_emits, seat.
  unfold pre_join in *.
  destruct (memberships s !! socket) as [pm|] eqn:Hm; simpl;
    [destruct (negb (Membership.code pm =? c)) eqn:Hne; simpl|].
  1: rewrite handleDisconnect_eq; rewrite Hpre.
  1: generalize (leave socket now_leave
       (with_joined (λ j, j ∖ {[(socket, Membership.code pm)]}) s)); intros s1.
  all: rewrite Hroom; simpl; clear Hpre.
  all: destruct (list_find _ (players room)) as [[index existing]|]; simpl.
  all: rewrite ?andb_false_r, ?andb_true_r.
  all: run_M; unfold with_rooms, with_memberships, with_joined, with_outbox;
    simpl; rewrite <- ?app_assoc; done.
Qed.

Lemma handleJoinRoom_throw socket payload now_leave now s message s' :
  handleJoinRoom socket payload now_leave now s = (Throw message, s') → s' = s.
Proof.
  unfold handleJoinRoom. unfold_M. intros H.
  repeat (first [progress unfold_M | case_match
                | rewrite handleDisconnect_eq in * ]; simplify_eq/=; try done).
Qed.

Lemma truthy_string_inv v :
  negb (truthy v) || negb (typeof v =? "string") = false →
  v = JStr (str_of v) ∧ str_of v ≠ "".
Proof.
  destruct v; simpl; try (by destruct b); try (by destruct (_ =? _)%Z); try done.
  destruct (s =? "") eqn:Hs; simpl; [done|].
  intros _. split; [done|]. by apply String.eqb_neq.
Qed.

Lemma handleJoinRoom_ok socket payload now_leave now s s' :
  handleJoinRoom socket payload now_leave now s = (Ok (), s') →
  ∃ c u room,
    join_request payload c u ∧ rooms s !! c = Some room
    ∧ (negb (bool_decide (is_Some (list_find (λ p, uid p = u) (players room))))
       && (2 <=? length (players room))%nat = false)
    ∧ s' = joined_state socket c u now_leave now room s.
Proof.
  intros H.
  assert (∃ c u, join_request payload c u) as (c & u & Hreq).
  { revert H. unfold handleJoinRoom. unfold_M.
    destruct payload; simpl; try done.
    destruct (negb (truthy (default JUndefined (own_prop "code" props))) || _)
      eqn:Hc; simpl; [done|].
    destruct (negb (truthy (default JUndefined (own_prop "uid" props))) || _)
      eqn:Hu; simpl; [done|].
    intros _. apply truthy_string_inv in Hc as [Hc1 Hc2].
    apply truthy_string_inv in Hu as [Hu1 Hu2].
    eexists _, _. by repeat split. }
  destruct (rooms s !! c) as [room|] eqn:Hroom.
  - rewrite (handleJoinRoom_eq _ _ _ _ _ _ _ _ Hreq Hroom) in H.
    exists c, u, room. destruct (negb _ && _); [done|]. by simplify_eq.
  - exfalso. revert H. destruct Hreq as (Hc & Hcne & Hu & Hune).
    unfold handleJoinRoom. unfold_M.
    destruct payload; simpl in *; try done.
    rewrite Hc, Hu. simpl.
    rewrite (nonempty_eqb _ Hcne), (nonempty_eqb _ Hune). simpl.
    by rewrite Hroom.
Qed.

Lemma handleMove_eq socket payload now s c move room :
  move_request socket payload s c move room →
  handleMove socket payload now s =
    if negb (truthy move) || negb (typeof move =? "object")
    then (Throw "Move payload is required", s)
    else match validateMovePayload move with
         | Throw message => (Throw message, s)
         | Ok _ => (Ok (), moved_state c move now room s)
         end.
Proof.
  intros [(m & Hm & Hmc & i & player & Hfind & Hturn) [Hc Hcne] Hmove Hroom].
  unfold handleMove. unfold_M. rewrite Hm.
  destruct payload; simpl in Hc; try discriminate. simpl.
  simpl in Hmove. rewrite Hc, Hmove. simpl.
  rewrite (nonempty_eqb _ Hcne), Hmc, String.eqb_refl. simpl.
  destruct (negb (truthy move) || _); simpl; [done|].
  rewrite Hroom, Hfind, Hturn, String.eqb_refl. simpl.
  destruct (validateMovePayload move); [|done].
  unfold moved_state, move_applied, with_rooms, with_outbox. done.
Qed.

Lemma handleMove_throw socket payload now s message s' :
  handleMove socket payload now s = (Throw message, s') → s' = s.
Proof.
  unfold handleMove. unfold_M. intros H. run_M.
Qed.

Lemma handleMove_ok socket payload now s s' :
  handleMove socket payload now s = (Ok (), s') →
  ∃ c move room,
    move_request socket payload s c move room
    ∧ validateMovePayload move = Ok ()
    ∧ s' = moved_state c move now room s.
Proof.
  intros H.
  assert (∃ c move room, move_request socket payload s c move room)
    as (c & move & room & Hreq).
  { revert H. unfold handleMove. unfold_M.
    destruct (memberships s !! socket) as [m|] eqn:Hm; [|done].
    destruct payload; simpl; try done.
    destruct (negb (truthy (default JUndefined (own_prop "code" props))) || _)
      eqn:Hc; simpl; [done|].
    apply truthy_string_inv in Hc as [Hc1 Hc2].
    destruct (Membership.code m =? _) eqn:Hmc; simpl; [|done].
    apply String.eqb_eq in Hmc.
    destruct (negb (truthy (default JUndefined (own_prop "move" props))) || _)
      eqn:Hmv; simpl; [done|].
    destruct (rooms s !! _) as [room|] eqn:Hroom; [|done].
    destruct (list_find _ _) as [[i player]|] eqn:Hfind; [|done].
    destruct (color player =? sideToMove room) eqn:Hturn; simpl; [|done].
    apply String.eqb_eq in Hturn. intros _.
    eexists _, _, room. split; simpl; eauto 10. }
  rewrite (handleMove_eq _ _ _ _ _ _ _ Hreq) in H.
  exists c, move, room. destruct (negb (truthy move) || _); [done|].
  destruct (validateMovePayload move) as [[]|]; [|done].
  by simplify_eq.
Qed.

(** ** The room invariant *)

Lemma genCode_length rnd : String.length (genCode rnd) = 6%nat.
Proof. reflexivity. Qed.

Lemma createRoom_ok rnd now : room_ok (genCode rnd) (createRoom (genCode rnd) now).
Proof.
  split; simpl; try done.
  - lia.
  - constructor.
  - by left.
Qed.

Lemma fresh_code_Some attempts rs c :
  fresh_code attempts rs = Some c → rs !! c = None ∧ ∃ rnd, c = genCode rnd.
Proof.
  induction attempts as [|rnd rest IH]; simpl; [done|].
  destruct (rs !! genCode rnd) eqn:Hrs; [done|].
  intros [= <-]. eauto.
Qed.

Lemma room_ok_lastActive k now r : room_ok k r → room_ok k (set_lastActive now r).
Proof. intros []. by split. Qed.

Lemma room_ok_reset k r :
  room_ok k r → room_ok k (set_state initialState (set_sideToMove "WHITE" r)).
Proof. intros []. split; simpl; try done. by left. Qed.

Lemma room_ok_players k r l :
  room_ok k r →
  (length l ≤ 2)%nat →
  NoDup (uid <$> l) →
  Forall (λ p, uid p ≠ "") l →
  Forall (λ p, canonical (color p)) l →
  (l = [] → state r = initialState ∧ sideToMove r = "WHITE") →
  room_ok k (set_players l r).
Proof. intros []. by split. Qed.

Lemma vacate_ok k u now r : room_ok k r → room_ok k (vacate u now r).1.
Proof.
  intros Hok. unfold vacate.
  destruct (list_find _ _) as [[index p]|] eqn:Hfind.
  - apply list_find_Some in Hfind as (Hi & _).
    assert (length (delete index (players r)) ≤ 2)%nat as Hlen.
    { rewrite length_delete; [|eauto]. destruct Hok. lia. }
    assert (NoDup (uid <$> delete index (players r))) as Hnd.
    { eapply sublist_NoDup; [apply Hok|]. apply fmap_sublist, sublist_delete. }
    assert (Forall (λ p, uid p ≠ "") (delete index (players r))) as Hids
      by apply Forall_delete, Hok.
    assert (Forall (λ p, canonical (color p)) (delete index (players r)))
      as Hcol by apply Forall_delete, Hok.
    cbn -[Nat.eqb].
    destruct (length (delete index (players r)) =? 0)%nat eqn:Hz.
    + destruct Hok. split; simpl; try done. by left.
    + destruct Hok. split; simpl; try done.
      intros Hnil. by rewrite Hnil in Hz.
  - cbn -[Nat.eqb]. destruct (length (players r) =? 0)%nat; [|done].
    by apply room_ok_reset.
Qed.

Lemma seat_ok k socket u now r :
  room_ok k r → u ≠ "" →
  negb (bool_decide (is_Some (list_find (λ p, uid p = u) (players r))))
  && (2 <=? length (players r))%nat = false →
  room_ok k (set_lastActive now (seat socket u r).2).
Proof.
  intros Hok Hu Hfull. apply room_ok_lastActive. unfold seat.
  destruct (list_find _ _) as [[index existing]|] eqn:Hfind; simpl.
  - apply list_find_Some in Hfind as (Hi & Huid & _).
    destruct Hok. apply room_ok_players; [by split|..].
    + by rewrite length_insert.
    + rewrite list_fmap_insert. simpl. rewrite list_insert_id; [done|].
      by rewrite list_lookup_fmap, Hi.
    + apply Forall_insert; [done|]. simpl. by rewrite Huid.
    + apply Forall_insert; [done|]. simpl.
      eapply (Forall_lookup_1 _ _ _ _ ok_colors0 Hi).
    + intros Hnil. apply (f_equal length) in Hnil.
      rewrite length_insert in Hnil. apply nil_length_inv in Hnil.
      by rewrite Hnil in Hi.
  - apply andb_false_iff in Hfull
      as [Hx%negb_false_iff%bool_decide_eq_true | Hfull%Nat.leb_gt];
      [by destruct Hx|].
    apply list_find_None in Hfind.
    destruct Hok. apply room_ok_players; [by split|..].
    + rewrite length_app. simpl. lia.
    + rewrite fmap_app. apply NoDup_app. split_and!; [done| |].
      * intros x Hx. simpl. rewrite list_elem_of_singleton. intros ->.
        apply list_elem_of_fmap in Hx as (p & Hp1 & Hp2).
        rewrite Forall_forall in Hfind. by apply (Hfind p).
      * simpl. apply NoDup_singleton.
    + apply Forall_app. split; [done|]. by apply Forall_singleton.
    + apply Forall_app. split; [done|]. apply Forall_singleton. simpl.
      destruct (length (players r) =? 0)%nat; [by left|by right].
    + by destruct (players r).
Qed.

Lemma applyMoveServer_ok k r move :
  room_ok k r → players r ≠ [] → room_ok k (applyMoveServer r move).
Proof.
  intros [] Hne. split; simpl; try done.
  destruct (sideToMove r =? "WHITE"); [by right|by left].
Qed.

Lemma leave_Inv socket now s : Inv s → Inv (leave socket now s).
Proof.
  intros HI. unfold leave.
  destruct (memberships s !! socket) as [m|]; [|done].
  destruct (rooms s !! Membership.code m) as [room|] eqn:Hroom; [|done].
  intros k r. simpl. rewrite lookup_insert. case_decide as Hk.
  - intros [= <-]. subst k. apply vacate_ok. by apply HI.
  - apply HI.
Qed.

Lemma pre_join_Inv socket c now_leave s : Inv s → Inv (pre_join socket c now_leave s).
Proof.
  intros HI. unfold pre_join.
  destruct (memberships s !! socket) as [pm|]; [|done].
  destruct (negb _); [|done].
  by apply leave_Inv.
Qed.

Lemma joined_state_Inv socket c u now_leave now room s :
  Inv s → rooms s !! c = Some room → u ≠ "" →
  negb (bool_decide (is_Some (list_find (λ p, uid p = u) (players room))))
  && (2 <=? length (players room))%nat = false →
  Inv (joined_state socket c u now_leave now room s).
Proof.
  intros HI Hroom Hu Hfull k r. unfold joined_state. simpl.
  rewrite lookup_insert. case_decide as Hk.
  - intros [= <-]. subst k. apply seat_ok; [by apply HI|done..].
  - by apply pre_join_Inv.
Qed.

Lemma moved_state_Inv socket payload c move now room s :
  Inv s → move_request socket payload s c move room →
  Inv (moved_state c move now room s).
Proof.
  intros HI Hreq k r. unfold moved_state. simpl.
  rewrite lookup_insert. case_decide as Hk.
  - intros [= <-]. subst k.
    apply room_ok_lastActive, applyMoveServer_ok; [apply HI, Hreq|].
    destruct Hreq as [(m & _ & _ & i & player & Hfind & _) _ _ _].
    intros Hnil. by rewrite Hnil in Hfind.
  - apply HI.
Qed.

Lemma on_join_room_Inv socket payload now_leave now s :
  Inv s → Inv (on_join_room socket payload now_leave now s).
Proof.
  intros HI. unfold on_join_room.
  destruct (handleJoinRoom _ _ _ _ _) as [[[]|message] s'] eqn:Hrun.
  - apply handleJoinRoom_ok in Hrun as (c & u & room & Hreq & Hroom & Hfull & ->).
    apply joined_state_Inv; [done..| |done]. apply Hreq.
  - apply handleJoinRoom_throw in Hrun as ->. done.
Qed.

Lemma on_move_Inv socket payload now s : Inv s → Inv (on_move socket payload now s).
Proof.
  intros HI. unfold on_move.
  destruct (handleMove _ _ _ _) as [[[]|message] s'] eqn:Hrun.
  - apply handleMove_ok in Hrun as (c & move & room & Hreq & _ & ->).
    by eapply moved_state_Inv.
  - apply handleMove_throw in Hrun as ->. done.
Qed.

Lemma on_disconnect_Inv socket now s : Inv s → Inv (on_disconnect socket now s).
Proof.
  intros HI. unfold on_disconnect. rewrite handleDisconnect_eq. simpl.
  intros k r Hr. eapply leave_Inv; [|exact Hr]. done.
Qed.

Lemma post_room_Inv attempts now s : Inv s → Inv (post_room attempts now s).2.
Proof.
  intros HI. unfold post_room.
  destruct (fresh_code _ _) as [c|] eqn:Hc; [|done].
  apply fresh_code_Some in Hc as (_ & rnd & ->).
  intros k r. simpl. rewrite lookup_insert. case_decide as Hk.
  - intros [= <-]. subst k. apply createRoom_ok.
  - apply HI.
Qed.

Lemma sweep_Inv now s : Inv s → Inv (sweep now s).
Proof.
  intros HI k r. unfold sweep. simpl.
  intros Hr%map_lookup_filter_Some_1_1. by apply HI.
Qed.

Lemma dispatch_Inv s e : Inv s → Inv (dispatch s e).
Proof.
  destruct e; simpl;
    auto using post_room_Inv, on_join_room_Inv, on_move_Inv,
      on_disconnect_Inv, sweep_Inv.
Qed.

Lemma init_Inv : Inv init.
Proof. intros k r. unfold init. simpl. by rewrite lookup_empty. Qed.

Lemma foldl_dispatch_Inv events s : Inv s → Inv (foldl dispatch s events).
Proof.
  revert s. induction events as [|e events IH]; intros s HI; simpl; [done|].
  by apply IH, dispatch_Inv.
Qed.

Lemma reachable_Inv s : reachable s → Inv s.
Proof. intros [events ->]. apply foldl_dispatch_Inv, init_Inv. Qed.

(** ** Properties of the room state machine *)

Lemma reachable_run events : reachable (run events).
Proof. by exists events. Qed.

(** *** C1: the side given to a newcomer *)

(** The colour of a new player depends on the number of players only. *)
Lemma seat_newcomer socket u room :
  list_find (λ p, uid p = u) (players room) = None →
  color (seat socket u room).1
  = if (length (players room) =? 0)%nat then "WHITE" else "BLACK".
Proof. intros Hfind. unfold seat. by rewrite Hfind. Qed.

(** C1 (the code departs from it). After white left a room of two, the
    newcomer is given "BLACK", the side the remaining player holds, and not
    the free side "WHITE": the room then holds two black players. *)
Theorem C1_newcomer_duplicates_black :
  (λ r, (λ p, (uid p, color p)) <$> players r) <$> rooms (run white_leaves) !! "AAAAAA"
  = Some [("u2", "BLACK"); ("u3", "BLACK")].
Proof. vm_compute. reflexivity. Qed.

(** *** C2: turn alternation *)

(** An accepted move hands the turn to the other side. *)
Lemma handleMove_flips socket payload now s s' c room :
  get_prop payload "code" = JStr c →
  rooms s !! c = Some room →
  handleMove socket payload now s = (Ok (), s') →
  ∃ room', rooms s' !! c = Some room'
           ∧ sideToMove room' = other_side (sideToMove room).
Proof.
  intros Hc Hroom Hrun.
  apply handleMove_ok in Hrun as (c' & move & room0 & Hreq & _ & ->).
  destruct Hreq as [_ [Hc' _] _ Hroom0].
  rewrite Hc in Hc'. simplify_eq.
  eexists. unfold moved_state. simpl. rewrite lookup_insert_eq. done.
Qed.

Lemma accepted_moves_side c n s s' room :
  rooms s !! c = Some room →
  accepted_moves c n s s' →
  ∃ room', rooms s' !! c = Some room'
           ∧ sideToMove room' = Nat.iter n other_side (sideToMove room).
Proof.
  intros Hroom Hacc. revert room Hroom.
  induction Hacc as [s|n s socket payload now s1 s2 Hc Hrun Hacc IH];
    intros room Hroom.
  - by exists room.
  - destruct (handleMove_flips _ _ _ _ _ _ _ Hc Hroom Hrun) as (room1 & Hr1 & Hs1).
    destruct (IH room1 Hr1) as (room2 & Hr2 & Hs2).
    exists room2. split; [done|]. rewrite Hs2, Hs1.
    by rewrite Nat.iter_succ_r.
Qed.

Lemma iter_other_side_white n :
  Nat.iter n other_side "WHITE" = if Nat.even n then "WHITE" else "BLACK".
Proof.
  induction n as [|n IH]; [done|].
  rewrite Nat.even_succ, <- Nat.negb_even. simpl. rewrite IH.
  by destruct (Nat.even n).
Qed.

(** C2. Starting from side to move "WHITE", after [n] accepted moves of a
    room its side to move is "WHITE" when [n] is even and "BLACK" when [n]
    is odd (each accepted move flipping it, [handleMove_flips]). *)
Theorem C2_turn_alternation c n s s' room :
  rooms s !! c = Some room →
  sideToMove room = "WHITE" →
  accepted_moves c n s s' →
  ∃ room', rooms s' !! c = Some room'
           ∧ sideToMove room' = if Nat.even n then "WHITE" else "BLACK".
Proof.
  intros Hroom Hwhite Hacc.
  destruct (accepted_moves_side _ _ _ _ _ Hroom Hacc) as (room' & Hr' & Hs').
  exists room'. split; [done|].
  by rewrite Hs', Hwhite, iter_other_side_white.
Qed.

Lemma C2_turn_alternation_witness :
  ∃ room', rooms (on_move "s2" reply 4 (run opening)) !! "AAAAAA" = Some room'
           ∧ sideToMove room' = "WHITE".
Proof.
  assert (∃ room, rooms (run two_players) !! "AAAAAA" = Some room
                  ∧ sideToMove room = "WHITE") as (room & Hroom & Hwhite)
    by (eexists; split; vm_compute; reflexivity).
  apply (C2_turn_alternation "AAAAAA" 2 (run two_players) _ room Hroom Hwhite).
  eapply (accepted_next _ _ _ "s1"
            (move_payload "AAAAAA" (JObj [("from", JInt 12); ("to", JInt 28)])) 3);
    [reflexivity|vm_compute; reflexivity|].
  eapply (accepted_next _ _ _ "s2" reply 4);
    [reflexivity|vm_compute; reflexivity|].
  vm_compute. apply accepted_none.
Defined.

(** *** C3: joining twice is a reconnection *)

(** The state reached by a join that finds its identity in the room. *)
Lemma reconnect_state s socket payload c u now_leave now room index existing :
  reachable s →
  get_prop payload "code" = JStr c →
  get_prop payload "uid" = JStr u →
  rooms s !! c = Some room →
  list_find (λ p, uid p = u) (players room) = Some (index, existing) →
  handleJoinRoom socket payload now_leave now s
  = (Ok (), joined_state socket c u now_leave now room s)
  ∧ rooms (joined_state socket c u now_leave now room s) !! c
    = Some (set_lastActive now
              (set_players (<[index := set_socketId socket existing]> (players room))
                 room)).
Proof.
  intros Hreach Hc Hu Hroom Hfind.
  destruct (reachable_Inv _ Hreach c room Hroom) as [_ Hkey _ _ Hids _ _ _].
  pose proof Hfind as (Hi & Huid & _)%list_find_Some.
  assert (join_request payload c u) as Hreq.
  { split_and!; try done.
    - intros ->. done.
    - rewrite <- Huid. by eapply (Forall_lookup_1 _ _ _ _ Hids Hi). }
  split.
  - rewrite (handleJoinRoom_eq _ _ _ _ _ c u room); [|done..].
    by rewrite Hfind.
  - unfold joined_state, seat. rewrite Hfind. simpl.
    by rewrite lookup_insert_eq.
Qed.

(** C3. In a reachable state, a join request with the identity of a player
    of the room succeeds; the room has the same players, with the same
    colours, in the same order, but for the [socketId] of that player, which
    is now the requesting socket; code, game state and side to move are
    unchanged. *)
Theorem C3_rejoin_reconnects s socket payload c u now_leave now room index existing :
  reachable s →
  get_prop payload "code" = JStr c →
  get_prop payload "uid" = JStr u →
  rooms s !! c = Some room →
  list_find (λ p, uid p = u) (players room) = Some (index, existing) →
  ∃ s' room',
    handleJoinRoom socket payload now_leave now s = (Ok (), s')
    ∧ rooms s' !! c = Some room'
    ∧ length (players room') = length (players room)
    ∧ players room' =
        <[index := {| uid := uid existing; color := color existing;
                      socketId := socket |}]> (players room)
    ∧ color <$> players room' = color <$> players room
    ∧ uid <$> players room' = uid <$> players room
    ∧ code room' = code room ∧ state room' = state room
    ∧ sideToMove room' = sideToMove room.
Proof.
  intros Hreach Hc Hu Hroom Hfind.
  destruct (reconnect_state s socket payload c u now_leave now room index existing)
    as (Hrun & Hroom'); [done..|].
  pose proof Hfind as (Hi & Huid & _)%list_find_Some.
  eexists _, _. split; [exact Hrun|]. split; [exact Hroom'|].
  split_and!; try done; simpl.
  - by rewrite length_insert.
  - rewrite list_fmap_insert. simpl. apply list_insert_id.
    by rewrite list_lookup_fmap, Hi.
  - rewrite list_fmap_insert. simpl. apply list_insert_id.
    by rewrite list_lookup_fmap, Hi.
Qed.

Lemma C3_rejoin_reconnects_witness :
  ∃ s' room',
    handleJoinRoom "s9" (join_payload "AAAAAA" "u1") 5 5 (run opening) = (Ok (), s')
    ∧ rooms s' !! "AAAAAA" = Some room'
    ∧ players room' =
        [{| uid := "u1"; color := "WHITE"; socketId := "s9" |};
         {| uid := "u2"; color := "BLACK"; socketId := "s2" |}].
Proof.
  assert (∃ room, rooms (run opening) !! "AAAAAA" = Some room
                  ∧ list_find (λ p, uid p = "u1") (players room)
                    = Some (0%nat, {| uid := "u1"; color := "WHITE"; socketId := "s1" |})
                  ∧ players room =
                      [{| uid := "u1"; color := "WHITE"; socketId := "s1" |};
                       {| uid := "u2"; color := "BLACK"; socketId := "s2" |}])
    as (room & Hroom & Hfind & Hplayers)
    by (eexists; split_and!; vm_compute; reflexivity).
  destruct (C3_rejoin_reconnects (run opening) "s9" (join_payload "AAAAAA" "u1")
              "AAAAAA" "u1" 5 5 room _ _ (reachable_run _) eq_refl eq_refl
              Hroom Hfind)
    as (s' & room' & Hrun & Hroom' & _ & Hp & _).
  exists s', room'. split_and!; [done..|].
  rewrite Hp, Hplayers. reflexivity.
Defined.

(** *** C4: capacity *)

(** C4. In a reachable state, a join request naming a room that holds two
    players, with an identity that is none of them, throws "Room is full"
    and leaves the whole server state, hence the room and its two players,
    as it was. *)
Theorem C4_room_full s socket payload c u now_leave now room :
  reachable s →
  get_prop payload "code" = JStr c →
  get_prop payload "uid" = JStr u →
  u ≠ "" →
  rooms s !! c = Some room →
  length (players room) = 2%nat →
  list_find (λ p, uid p = u) (players room) = None →
  handleJoinRoom socket payload now_leave now s = (Throw "Room is full", s)
  ∧ rooms (on_join_room socket payload now_leave now s) !! c = Some room
  ∧ memberships (on_join_room socket payload now_leave now s) = memberships s.
Proof.
  intros Hreach Hc Hu Hune Hroom Hlen Hfind.
  assert (c ≠ "") as Hcne.
  { destruct (reachable_Inv _ Hreach c room Hroom) as [_ Hkey _ _ _ _ _ _].
    intros ->. done. }
  assert (handleJoinRoom socket payload now_leave now s = (Throw "Room is full", s))
    as Hrun.
  { rewrite (handleJoinRoom_eq _ _ _ _ _ c u room); [|done..].
    by rewrite Hfind, Hlen. }
  split; [done|]. unfold on_join_room. by rewrite Hrun.
Qed.

Lemma C4_room_full_witness :
  handleJoinRoom "s3" (join_payload "AAAAAA" "u3") 5 5 (run opening)
  = (Throw "Room is full", run opening).
Proof.
  assert (∃ room, rooms (run opening) !! "AAAAAA" = Some room
                  ∧ length (players room) = 2%nat
                  ∧ list_find (λ p, uid p = "u3") (players room) = None)
    as (room & Hroom & Hlen & Hfind)
    by (eexists; split_and!; vm_compute; reflexivity).
  apply (C4_room_full (run opening) "s3" (join_payload "AAAAAA" "u3")
           "AAAAAA" "u3" 5 5 room); try done.
  apply reachable_run.
Defined.

(** *** C5: a failed request changes nothing *)

(** C5. When [handleJoinRoom] or [handleMove] throws, whatever the error,
    the server state at the throw is the state before the request: rooms
    (players, side to move, game state, last activity), memberships and
    channel subscriptions are untouched and nothing was emitted; the
    listener then adds one [error_msg] addressed to the requesting socket
    alone. *)
Theorem C5_failure_is_atomic socket payload now_leave now s message s' :
  handleJoinRoom socket payload now_leave now s = (Throw message, s')
  ∨ handleMove socket payload now s = (Throw message, s') →
  s' = s
  ∧ (handleJoinRoom socket payload now_leave now s = (Throw message, s') →
     on_join_room socket payload now_leave now s =
       {| rooms := rooms s; memberships := memberships s; joined := joined s;
          outbox := (outbox s ++ [error_msg socket message "Failed to join room"])%list |})
  ∧ (handleMove socket payload now s = (Throw message, s') →
     on_move socket payload now s =
       {| rooms := rooms s; memberships := memberships s; joined := joined s;
          outbox := (outbox s ++ [error_msg socket message "Failed to apply move"])%list |})
  ∧ target (error_msg socket message "Failed to join room") = ToSocket socket
  ∧ target (error_msg socket message "Failed to apply move") = ToSocket socket.
Proof.
  intros H.
  assert (s' = s) as ->
    by (destruct H as [H|H];
        eauto using handleJoinRoom_throw, handleMove_throw).
  split_and!; try done.
  - intros Hrun. unfold on_join_room. by rewrite Hrun.
  - intros Hrun. unfold on_move. by rewrite Hrun.
Qed.

(** Black tries to move out of turn. *)
Lemma C5_failure_is_atomic_witness :
  rooms (on_move "s2" reply 3 (run two_players)) = rooms (run two_players)
  ∧ outbox (on_move "s2" reply 3 (run two_players)) =
      (outbox (run two_players)
       ++ [{| target := ToSocket "s2"; event := "error_msg";
              args := JObj [("message", JStr "Not your turn")] |}])%list.
Proof.
  assert (handleMove "s2" reply 3 (run two_players)
          = (Throw "Not your turn", run two_players)) as Hrun
    by (vm_compute; reflexivity).
  destruct (C5_failure_is_atomic "s2" reply 0 3 (run two_players)
              "Not your turn" (run two_players) (or_intror Hrun))
    as (_ & _ & Hmove & _).
  rewrite (Hmove Hrun). split; vm_compute; reflexivity.
Defined.

(** *** C6: structural validation of a move *)

Lemma squares_check f t :
  negb (isInteger f) || negb (isInteger t)
  || ((int_of f <? 0)%Z || (63 <? int_of f)%Z
      || (int_of t <? 0)%Z || (63 <? int_of t)%Z)
  || (int_of f =? int_of t)%Z
  = not_integer f || not_integer t || outside_board f || outside_board t
    || same_square f t.
Proof.
  destruct f, t; simpl; try done.
  by destruct (z <? 0)%Z, (63 <? z)%Z, (z0 <? 0)%Z, (63 <? z0)%Z.
Qed.

Lemma promo_check p :
  negb (is_undefined p) && negb (is_null p)
  && (negb (typeof p =? "string") || negb (includes ["Q"; "R"; "B"; "N"] p))
  = given_non_null p && negb (is_piece p).
Proof.
  destruct p; simpl; try done.
  f_equal. apply bool_decide_ext.
  rewrite !elem_of_cons, elem_of_nil. tauto.
Qed.

Lemma flag_check v :
  negb (is_undefined v) && negb (typeof v =? "boolean")
  = given v && negb (is_boolean v).
Proof. by destruct v. Qed.

Lemma validateMovePayload_Ok move :
  validateMovePayload move = Ok () ↔ malformed move = false.
Proof.
  unfold malformed, bad_squares, bad_promo, bad_flag.
  rewrite <- squares_check, <- promo_check, <- !flag_check.
  unfold validateMovePayload.
  repeat (match goal with
          | |- context [if ?b then _ else _] => destruct b; simpl
          end);
    rewrite ?orb_true_r; done.
Qed.

Lemma validateMovePayload_Throw move :
  (∃ message, validateMovePayload move = Throw message) ↔ malformed move = true.
Proof.
  pose proof (validateMovePayload_Ok move) as Hok.
  destruct (validateMovePayload move) as [[]|message];
    destruct (malformed move); split; try done; eauto.
  - intros _. by destruct Hok as [Hok _]; specialize (Hok eq_refl).
  - intros [? ?]. done.
  - by destruct Hok as [_ Hok]; specialize (Hok eq_refl).
Qed.

Lemma validateMovePayload_messages move message :
  validateMovePayload move = Throw message → message ∈ validation_messages.
Proof.
  unfold validateMovePayload, validation_messages.
  repeat (match goal with
          | |- context [if ?b then _ else _] => destruct b; simpl
          end);
    intros [= <-]; rewrite !elem_of_cons; tauto.
Qed.

(** What is not an object is malformed. *)
Lemma malformed_not_object move :
  negb (truthy move) || negb (typeof move =? "object") = true →
  malformed move = true.
Proof. by destruct move. Qed.

(** C6 (as amended). For a move sent by the participant whose turn it is,
    [handleMove] throws exactly when the move is malformed: [from] or [to]
    not an integer or outside 0..63, [from] equal to [to], [promo] given and
    not [null] but none of "Q", "R", "B", "N", or one of the three flags
    given ([null] included) but not a boolean; the error is then one of the
    validation errors. A move with none of these defects passes
    [validateMovePayload] and is accepted. *)
Theorem C6_validation socket payload now s c move room :
  move_request socket payload s c move room →
  ((∃ message, (handleMove socket payload now s).1 = Throw message)
   ↔ malformed move = true)
  ∧ (∀ message, (handleMove socket payload now s).1 = Throw message →
                message ∈ validation_messages)
  ∧ (malformed move = false →
     validateMovePayload move = Ok ()
     ∧ (handleMove socket payload now s).1 = Ok ()).
Proof.
  intros Hreq. rewrite (handleMove_eq _ _ _ _ _ _ _ Hreq).
  pose proof (validateMovePayload_Ok move) as Hok.
  pose proof (malformed_not_object move) as Hobj.
  pose proof (validateMovePayload_messages move) as Hmsg.
  destruct (negb (truthy move) || _) eqn:Hguard; simpl.
  - rewrite (Hobj eq_refl). split_and!; [split; eauto| |done].
    intros message [= <-]. unfold validation_messages.
    rewrite !elem_of_cons. tauto.
  - destruct (validateMovePayload move) as [[]|message] eqn:Hv; simpl.
    + destruct Hok as [Hok _]. rewrite (Hok eq_refl).
      split_and!; [split; [|done]; by intros [? ?]|done|done].
    + destruct (malformed move) eqn:Hm.
      * split_and!; [split; eauto| |done].
        intros message' [= <-]. by apply Hmsg.
      * destruct Hok as [_ Hok]. by specialize (Hok eq_refl).
Qed.

Lemma two_players_room : rooms (run two_players) !! "AAAAAA" = Some lobby.
Proof. vm_compute. reflexivity. Qed.

Lemma white_to_move move :
  move_request "s1" (move_payload "AAAAAA" move) (run two_players) "AAAAAA"
    move lobby.
Proof.
  split.
  - eexists. split; [vm_compute; reflexivity|]. split; [reflexivity|].
    eexists _, _. split; [vm_compute; reflexivity|reflexivity].
  - split; [reflexivity|done].
  - reflexivity.
  - exact two_players_room.
Qed.

(** C6 (as stated) fails under either reading of "present". If a property
    given as [null] is present, [promo: null] is present and is none of the
    four pieces, yet the move is accepted; if it is absent, [isCastle: null]
    is absent, yet the move is rejected. *)
Lemma C6_validation_counterexample :
  ¬ validation_as_specified given ∧ ¬ validation_as_specified given_non_null.
Proof.
  split; intros H.
  - destruct (H "s1" (move_payload "AAAAAA" promo_null) 3%Z (run two_players)
                "AAAAAA" promo_null lobby (white_to_move promo_null))
      as [_ Hback].
    destruct (Hback eq_refl) as [message Hthrow].
    vm_compute in Hthrow. discriminate.
  - destruct (H "s1" (move_payload "AAAAAA" castle_null) 3%Z (run two_players)
                "AAAAAA" castle_null lobby (white_to_move castle_null))
      as [Hforth _].
    assert (malformed_as_specified given_non_null castle_null = true) as Hbad.
    { apply Hforth. eexists. vm_compute. reflexivity. }
    vm_compute in Hbad. discriminate.
Qed.

Lemma C6_validation_witness :
  validateMovePayload promo_null = Ok ()
  ∧ (handleMove "s1" (move_payload "AAAAAA" promo_null) 3 (run two_players)).1
    = Ok ().
Proof.
  exact (proj2 (proj2 (C6_validation "s1" (move_payload "AAAAAA" promo_null) 3
                         (run two_players) "AAAAAA" promo_null lobby
                         (white_to_move promo_null))) eq_refl).
Defined.

(** *** C7: the stored last move *)

Lemma js_or_promo p :
  given_non_null p && negb (is_piece p) = false →
  js_or p JNull = (if given p then p else JNull)
  ∧ is_null (js_or p JNull) || is_piece (js_or p JNull) = true.
Proof.
  destruct p; simpl; try done.
  intros [-> | [-> | [-> | ->]]]%negb_false_iff%bool_decide_eq_true; done.
Qed.

Lemma js_or_flag v :
  given v && negb (is_boolean v) = false →
  js_or v (JBool false) = (if given v then v else JBool false)
  ∧ is_boolean (js_or v (JBool false)) = true.
Proof. destruct v as [| |[]| | | | | |]; done. Qed.

(** C7. After an accepted move the [lastMove] of the room is the normal form
    of the submitted move; it has the six properties [from], [to], [promo],
    [isCastle], [isEnPassant] and [isDoublePawnPush], in which the squares
    are integers, [promo] is [null] or a piece and the flags are booleans. *)
Theorem C7_last_move_normalized socket payload now s s' :
  handleMove socket payload now s = (Ok (), s') →
  ∃ c room' record,
    get_prop payload "code" = JStr c
    ∧ rooms s' !! c = Some room'
    ∧ lastMove (state room') = JObj record
    ∧ JObj record = normalized (get_prop payload "move")
    ∧ record.*1 = ["from"; "to"; "promo"; "isCastle"; "isEnPassant";
                   "isDoublePawnPush"]
    ∧ isInteger (get_prop (JObj record) "from") = true
    ∧ isInteger (get_prop (JObj record) "to") = true
    ∧ is_null (get_prop (JObj record) "promo")
      || is_piece (get_prop (JObj record) "promo") = true
    ∧ is_boolean (get_prop (JObj record) "isCastle") = true
    ∧ is_boolean (get_prop (JObj record) "isEnPassant") = true
    ∧ is_boolean (get_prop (JObj record) "isDoublePawnPush") = true.
Proof.
  intros Hrun.
  apply handleMove_ok in Hrun as (c & move & room & Hreq & Hvalid & ->).
  destruct Hreq as [_ [Hc _] Hmove Hroom]. rewrite Hmove.
  apply validateMovePayload_Ok in Hvalid. unfold malformed in Hvalid.
  rewrite !orb_false_iff in Hvalid.
  destruct Hvalid as ((((Hsq & Hpromo) & Hf1) & Hf2) & Hf3).
  unfold bad_squares in Hsq. rewrite !orb_false_iff in Hsq.
  destruct Hsq as ((((Hfrom%negb_false_iff & Hto%negb_false_iff) & _) & _) & _).
  destruct (js_or_promo _ Hpromo) as [Hp1 Hp2].
  destruct (js_or_flag _ Hf1) as [Hc1 Hc2].
  destruct (js_or_flag _ Hf2) as [He1 He2].
  destruct (js_or_flag _ Hf3) as [Hd1 Hd2].
  eexists c, _, _. split; [done|].
  split; [unfold moved_state; simpl; by rewrite lookup_insert_eq|].
  split; [reflexivity|].
  unfold normalized. rewrite <- Hp1, <- Hc1, <- He1, <- Hd1.
  split_and!; done.
Qed.

Lemma C7_last_move_normalized_witness :
  ∃ room',
    rooms (on_move "s1" (move_payload "AAAAAA" promo_null) 3 (run two_players))
      !! "AAAAAA" = Some room'
    ∧ lastMove (state room') =
        JObj [("from", JInt 12); ("to", JInt 28); ("promo", JNull);
              ("isCastle", JBool false); ("isEnPassant", JBool false);
              ("isDoublePawnPush", JBool false)].
Proof.
  assert (∃ s', handleMove "s1" (move_payload "AAAAAA" promo_null) 3
                  (run two_players) = (Ok (), s')) as [s' Hrun]
    by (eexists; vm_compute; reflexivity).
  destruct (C7_last_move_normalized _ _ _ _ _ Hrun)
    as (c & room' & record & Hc & Hroom' & Hlast & Hnorm & _).
  injection Hc as <-.
  unfold on_move. rewrite Hrun. exists room'. split; [done|].
  rewrite Hlast, Hnorm. reflexivity.
Defined.

(** *** C8: the session invariant *)

(** C8. Every room of a reachable server state holds 0, 1 or 2 players, its
    side to move is "WHITE" or "BLACK", and when it holds no player its game
    state is the initial one and its side to move is "WHITE"; in particular
    a leave ([handleDisconnect]) that empties a room leaves it reset. *)
Theorem C8_session_invariant events k r :
  rooms (run events) !! k = Some r →
  (length (players r) = 0 ∨ length (players r) = 1 ∨ length (players r) = 2)%nat
  ∧ (sideToMove r = "WHITE" ∨ sideToMove r = "BLACK")
  ∧ (length (players r) = 0%nat →
     state r = initialState ∧ sideToMove r = "WHITE")
  ∧ ∀ socket now r',
      rooms (handleDisconnect socket now (run events)).2 !! k = Some r' →
      length (players r') = 0%nat →
      state r' = {| lastMove := JNull; boardFEN := "startpos" |}
      ∧ sideToMove r' = "WHITE".
Proof.
  intros Hr.
  pose proof (reachable_Inv _ (reachable_run events)) as HI.
  destruct (HI k r Hr) as [_ _ Hcount _ _ _ Hside Hempty].
  split_and!; [lia|done| |].
  - intros Hlen%nil_length_inv. by apply Hempty.
  - intros socket now r' Hr' Hlen%nil_length_inv.
    rewrite handleDisconnect_eq in Hr'. simpl in Hr'.
    apply (leave_Inv socket now) in HI. by apply (HI k r' Hr').
Qed.

Lemma C8_session_invariant_witness :
  ∃ r', rooms (handleDisconnect "s1" 9 (run (opening ++ [Disconnect "s2" 4]))).2
          !! "AAAAAA" = Some r'
        ∧ state r' = initialState ∧ sideToMove r' = "WHITE".
Proof.
  set (events := (opening ++ [Disconnect "s2" 4])%list).
  assert (∃ r, rooms (run events) !! "AAAAAA" = Some r) as [r Hr]
    by (eexists; vm_compute; reflexivity).
  assert (∃ r', rooms (handleDisconnect "s1" 9 (run events)).2 !! "AAAAAA"
                = Some r' ∧ length (players r') = 0%nat) as (r' & Hr' & Hlen)
    by (eexists; split; vm_compute; reflexivity).
  exists r'. split; [exact Hr'|].
  exact (proj2 (proj2 (proj2 (C8_session_invariant events "AAAAAA" r Hr)))
           "s1" 9%Z r' Hr' Hlen).
Defined.

(** *** C9: the notifications of a join *)

Lemma list_find_insert_same {A} (P : A → Prop) `{!∀ x, Decision (P x)}
    (l : list A) i x y :
  list_find P l = Some (i, x) → P y → list_find P (<[i := y]> l) = Some (i, y).
Proof.
  intros (Hi & Hx & Hfirst)%list_find_Some Hy. apply list_find_Some.
  split_and!; [|done|].
  - apply list_lookup_insert_eq. by eapply lookup_lt_Some.
  - intros j z Hj Hlt. rewrite list_lookup_insert_ne in Hj by lia. eauto.
Qed.

(** The joiner is found in the room under its identity. *)
Lemma seat_find socket u room :
  ∃ i, list_find (λ p, uid p = u) (players (seat socket u room).2)
       = Some (i, (seat socket u room).1).
Proof.
  unfold seat.
  destruct (list_find _ (players room)) as [[index existing]|] eqn:Hfind; simpl.
  - exists index. apply (list_find_insert_same _ _ _ _ _ Hfind).
    simpl. by apply list_find_Some in Hfind as (_ & ? & _).
  - exists (0 + length (players room))%nat.
    rewrite (list_find_app_r _ _ _ Hfind). simpl. by rewrite decide_True.
Qed.

Lemma vacate_emits u now r :
  Forall (λ e, target e = ToChannel (code r) ∧ event e = "room_state")
    (vacate u now r).2.
Proof.
  unfold vacate. destruct (list_find _ _) as [[index p]|]; simpl.
  - by apply Forall_singleton.
  - constructor.
Qed.

Lemma pre_join_outbox socket c now_leave s :
  Inv s →
  ∃ pre, outbox (pre_join socket c now_leave s) = (outbox s ++ pre)%list
         ∧ Forall (λ e, ∃ c', target e = ToChannel c' ∧ c' ≠ c
                              ∧ event e = "room_state") pre.
Proof.
  intros HI. unfold pre_join.
  destruct (memberships s !! socket) as [pm|] eqn:Hpm;
    [|exists []; by rewrite app_nil_r].
  destruct (Membership.code pm =? c) eqn:Hne; simpl;
    [exists []; by rewrite app_nil_r|].
  apply String.eqb_neq in Hne.
  unfold leave. simpl. rewrite Hpm.
  destruct (rooms s !! Membership.code pm) as [r|] eqn:Hr; simpl;
    [|exists []; by rewrite app_nil_r].
  eexists. split; [done|].
  eapply Forall_impl; [apply vacate_emits|]. simpl.
  intros e [Ht He]. exists (code r). split_and!; [done| |done].
  by rewrite (ok_code _ _ (HI _ _ Hr)).
Qed.

(** [opponent_joined] goes out exactly when the room had one player and the
    joiner is another identity; it is addressed to that player. *)
Lemma opponent_joined_when socket u now room :
  negb (bool_decide (is_Some (list_find (λ p, uid p = u) (players room))))
  && (2 <=? length (players room))%nat = false →
  (if (length (players (set_lastActive now (seat socket u room).2)) =? 2)%nat
      && negb (bool_decide (is_Some (list_find (λ p, uid p = u) (players room))))
   then match list_find (λ p, uid p ≠ u)
                (players (set_lastActive now (seat socket u room).2)) with
        | Some (_, otherPlayer) => [opponent_joined (socketId otherPlayer)]
        | None => []
        end
   else [])
  = match players room with
    | [first] =>
        if bool_decide (uid first = u) then []
        else [opponent_joined (socketId first)]
    | _ => []
    end.
Proof.
  unfold seat. destruct (players room) as [|p [|q rest]] eqn:Hplayers.
  - done.
  - cbn. case_decide as Hp; cbn.
    + by rewrite bool_decide_eq_true_2.
    + intros _. rewrite bool_decide_eq_false_2 by done.
      cbn. by rewrite decide_True.
  - destruct (list_find _ (p :: q :: rest)) as [[i e]|]; cbn; [|done].
    intros _. by rewrite andb_false_r.
Qed.

Lemma toLowerCase_canonical side :
  canonical side → toLowerCase side = "white" ∨ toLowerCase side = "black".
Proof. intros [-> | ->]; [by left|by right]. Qed.

(** C9. A join that succeeds in a reachable state emits, after whatever the
    implicit leave of another room sent to that room's channel: first
    [room_joined] to the joining socket, with the code of the room and the
    joiner's colour in lower case ("white" or "black"); then
    [opponent_joined] to the socket of the player already there, exactly
    when the room held one player and the joiner is another identity (never
    for a reconnection); last [room_state], the snapshot of the room, to the
    channel of the room, to which the joining socket is subscribed. *)
Theorem C9_join_notifications s socket payload now_leave now s' :
  reachable s →
  handleJoinRoom socket payload now_leave now s = (Ok (), s') →
  ∃ c u room room' index player side pre,
    get_prop payload "code" = JStr c ∧ get_prop payload "uid" = JStr u
    ∧ rooms s !! c = Some room ∧ rooms s' !! c = Some room'
    ∧ list_find (λ p, uid p = u) (players room') = Some (index, player)
    ∧ side = toLowerCase (color player)
    ∧ (side = "white" ∨ side = "black")
    ∧ outbox s' =
        (outbox s ++ pre
         ++ [{| target := ToSocket socket; event := "room_joined";
                args := JObj [("code", JStr c); ("color", JStr side)] |}]
         ++ match players room with
            | [first] =>
                if bool_decide (uid first = u) then []
                else [{| target := ToSocket (socketId first);
                         event := "opponent_joined"; args := JObj [] |}]
            | _ => []
            end
         ++ [{| target := ToChannel c; event := "room_state";
                args := room_state_payload room' |}])%list
    ∧ Forall (λ e, ∃ c', target e = ToChannel c' ∧ c' ≠ c
                         ∧ event e = "room_state") pre
    ∧ (socket, c) ∈ joined s'.
Proof.
  intros Hreach Hrun.
  pose proof (reachable_Inv _ Hreach) as HI.
  apply handleJoinRoom_ok in Hrun as (c & u & room & Hreq & Hroom & Hfull & ->).
  destruct (seat_find socket u room) as [index Hseat].
  destruct (pre_join_outbox socket c now_leave s HI) as (pre & Hpre & Hchan).
  pose proof (seat_ok c socket u now room (HI _ _ Hroom) (proj2 (proj2 (proj2 Hreq)))
                Hfull) as Hok'.
  pose proof Hseat as (Hi & _)%list_find_Some.
  exists c, u, room, (set_lastActive now (seat socket u room).2), index,
    (seat socket u room).1, (toLowerCase (color (seat socket u room).1)), pre.
  split_and!; try done; try apply Hreq.
  - unfold joined_state. simpl. by rewrite lookup_insert_eq.
  - apply toLowerCase_canonical.
    apply (Forall_lookup_1 _ _ _ _ (ok_colors _ _ Hok') Hi).
  - unfold joined_state. cbn [outbox]. rewrite Hpre. unfold join_emits.
    pose proof (opponent_joined_when socket u now room Hfull) as Hopp.
    unfold opponent_joined in Hopp. rewrite Hopp.
    rewrite (ok_code _ _ Hok'). by rewrite <- !app_assoc.
  - unfold joined_state. cbn [joined]. set_solver.
Qed.

Lemma C9_join_notifications_witness :
  ∃ s' room',
    handleJoinRoom "s2" (join_payload "AAAAAA" "u2") 2 2 (run (take 2 opening))
    = (Ok (), s')
    ∧ rooms s' !! "AAAAAA" = Some room'
    ∧ (∃ pre,
        outbox s' =
          (outbox (run (take 2 opening)) ++ pre
           ++ [{| target := ToSocket "s2"; event := "room_joined";
                  args := JObj [("code", JStr "AAAAAA"); ("color", JStr "black")] |};
               {| target := ToSocket "s1"; event := "opponent_joined";
                  args := JObj [] |};
               {| target := ToChannel "AAAAAA"; event := "room_state";
                  args := room_state_payload room' |}])%list)
    ∧ ("s2", "AAAAAA") ∈ joined s'.
Proof.
  assert (∃ s', handleJoinRoom "s2" (join_payload "AAAAAA" "u2") 2 2
                  (run (take 2 opening)) = (Ok (), s')) as [s' Hrun]
    by (eexists; vm_compute; reflexivity).
  destruct (C9_join_notifications _ _ _ _ _ _ (reachable_run _) Hrun)
    as (c & u & room & room' & index & player & side & pre
        & Hc & Hu & Hroom & Hroom' & Hfind & Hside & _ & Hout & _ & Hsub).
  injection Hc as <-. injection Hu as <-.
  assert (rooms (run (take 2 opening)) !! "AAAAAA"
          = Some {| code := "AAAAAA";
                    players := [{| uid := "u1"; color := "WHITE"; socketId := "s1" |}];
                    state := initialState; sideToMove := "WHITE"; lastActive := 1 |})
    as Hroom0 by (vm_compute; reflexivity).
  rewrite Hroom0 in Hroom. injection Hroom as <-.
  assert (side = "black") as ->.
  { revert Hrun Hroom' Hfind Hside. clear. intros Hrun.
    vm_compute in Hrun. injection Hrun as <-.
    vm_compute. intros [= <-]. vm_compute. intros [= <- <-]. done. }
  exists s', room'. split_and!; [done..| |done].
  exists pre. exact Hout.
Defined.

(** *** C10: a stale membership evicts a reconnected player *)

(** C10. A player of room [c] whose socket [old] keeps its membership
    reconnects on another socket [new]: the join succeeds, the player
    object then carries [new] as its [socketId], and [old] still has its
    membership. When [old] disconnects afterwards, [handleDisconnect]
    removes that player from the room all the same, and [new] is left with a
    membership for an identity that is no longer in the room. *)
Theorem C10_stale_membership_evicts s old new payload c u now_leave now now'
    room index existing :
  reachable s →
  memberships s !! old = Some {| Membership.code := c; Membership.uid := u |} →
  new ≠ old →
  get_prop payload "code" = JStr c →
  get_prop payload "uid" = JStr u →
  rooms s !! c = Some room →
  list_find (λ p, uid p = u) (players room) = Some (index, existing) →
  ∃ s1 s2 room1 room2,
    handleJoinRoom new payload now_leave now s = (Ok (), s1)
    ∧ handleDisconnect old now' s1 = (Ok (), s2)
    ∧ rooms s1 !! c = Some room1
    ∧ list_find (λ p, uid p = u) (players room1)
      = Some (index, {| uid := uid existing; color := color existing;
                        socketId := new |})
    ∧ memberships s1 !! old
      = Some {| Membership.code := c; Membership.uid := u |}
    ∧ rooms s2 !! c = Some room2
    ∧ list_find (λ p, uid p = u) (players room2) = None
    ∧ length (players room2) = pred (length (players room))
    ∧ memberships s2 !! new
      = Some {| Membership.code := c; Membership.uid := u |}.
Proof.
  intros Hreach Hold Hne Hc Hu Hroom Hfind.
  destruct (reconnect_state s new payload c u now_leave now room index existing)
    as (Hrun & Hroom1); [done..|].
  set (s1 := joined_state new c u now_leave now room s) in *.
  set (room1 := set_lastActive now
                  (set_players (<[index := set_socketId new existing]> (players room))
                     room)) in *.
  pose proof Hfind as (Hi & Huid & Hfirst)%list_find_Some.
  destruct (reachable_Inv _ Hreach c room Hroom) as [_ _ _ Huids _ _ _ _].
  assert (list_find (λ p, uid p = u) (players room1)
          = Some (index, set_socketId new existing)) as Hfind1.
  { apply list_find_Some. simpl. split_and!; [|done|].
    - apply list_lookup_insert_eq. by eapply lookup_lt_Some.
    - intros j y Hj Hlt. rewrite list_lookup_insert_ne in Hj by lia. eauto. }
  assert (memberships s1 !! old
          = Some {| Membership.code := c; Membership.uid := u |}) as Hold1.
  { unfold s1, joined_state. simpl. rewrite lookup_insert_ne by done.
    unfold pre_join. destruct (memberships s !! new) as [pm|] eqn:Hpm; [|done].
    destruct (negb _); [|done].
    unfold leave. simpl. rewrite Hpm.
    destruct (rooms s !! Membership.code pm); [|done].
    simpl. by rewrite lookup_delete_ne. }
  assert (memberships s1 !! new
          = Some {| Membership.code := c; Membership.uid := u |}) as Hnew1.
  { unfold s1, joined_state. simpl. by rewrite lookup_insert_eq. }
  assert (uid <$> delete index (players room1) = delete index (uid <$> players room))
    as Hdel.
  { simpl. rewrite list_fmap_delete, list_fmap_insert. simpl.
    rewrite list_insert_id; [done|]. by rewrite list_lookup_fmap, Hi. }
  assert (list_find (λ p, uid p = u) (delete index (players room1)) = None)
    as Hgone.
  { apply list_find_None, Forall_forall. intros p Hp Hpu.
    apply list_elem_of_lookup in Hp as [j Hj].
    assert (delete index (uid <$> players room) !! j = Some u) as Hju.
    { rewrite <- Hdel, list_lookup_fmap, Hj. simpl. by rewrite Hpu. }
    assert ((uid <$> players room) !! index = Some u) as Hiu
      by (by rewrite list_lookup_fmap, Hi; simpl; rewrite Huid).
    destruct (decide (j < index)%nat) as [Hlt|Hge].
    - rewrite list_lookup_delete_lt in Hju by done.
      pose proof (NoDup_lookup _ _ _ _ Huids Hju Hiu). lia.
    - rewrite list_lookup_delete_ge in Hju by lia.
      pose proof (NoDup_lookup _ _ _ _ Huids Hju Hiu). lia. }
  assert (length (delete index (players room1)) = pred (length (players room)))
    as Hlen.
  { simpl. rewrite length_delete, length_insert; [lia|].
    rewrite list_lookup_insert_eq; [done|]. by eapply lookup_lt_Some. }
  assert (rooms (leave old now' s1) !! c = Some (vacate u now' room1).1
          ∧ memberships (leave old now' s1) !! new
            = Some {| Membership.code := c; Membership.uid := u |})
    as [Hroom2 Hnew2].
  { unfold leave. rewrite Hold1. cbn [Membership.code Membership.uid].
    rewrite Hroom1. cbn [rooms memberships].
    by rewrite lookup_insert_eq, lookup_delete_ne. }
  clearbody s1 room1.
  exists s1, (leave old now' s1), room1, (vacate u now' room1).1.
  split_and!; try done.
  - apply handleDisconnect_eq.
  - unfold vacate. rewrite Hfind1. cbn -[Nat.eqb].
    by destruct (length _ =? 0)%nat.
  - unfold vacate. rewrite Hfind1. cbn -[Nat.eqb].
    by destruct (length _ =? 0)%nat.
Qed.

Lemma C10_stale_membership_evicts_witness :
  ∃ s1 s2 room1 room2,
    handleJoinRoom "s9" (join_payload "AAAAAA" "u1") 5 5 (run opening) = (Ok (), s1)
    ∧ handleDisconnect "s1" 6 s1 = (Ok (), s2)
    ∧ rooms s1 !! "AAAAAA" = Some room1
    ∧ list_find (λ p, uid p = "u1") (players room1)
      = Some (0%nat, {| uid := "u1"; color := "WHITE"; socketId := "s9" |})
    ∧ memberships s1 !! "s1"
      = Some {| Membership.code := "AAAAAA"; Membership.uid := "u1" |}
    ∧ rooms s2 !! "AAAAAA" = Some room2
    ∧ list_find (λ p, uid p = "u1") (players room2) = None
    ∧ length (players room2) = 1%nat
    ∧ memberships s2 !! "s9"
      = Some {| Membership.code := "AAAAAA"; Membership.uid := "u1" |}.
Proof.
  assert (∃ room, rooms (run opening) !! "AAAAAA" = Some room
                  ∧ list_find (λ p, uid p = "u1") (players room)
                    = Some (0%nat, {| uid := "u1"; color := "WHITE"; socketId := "s1" |})
                  ∧ length (players room) = 2%nat)
    as (room & Hroom & Hfind & Hlen)
    by (eexists; split_and!; vm_compute; reflexivity).
  assert (memberships (run opening) !! "s1"
          = Some {| Membership.code := "AAAAAA"; Membership.uid := "u1" |})
    as Hold by (vm_compute; reflexivity).
  assert ("s9" ≠ "s1") as Hne by discriminate.
  destruct (C10_stale_membership_evicts (run opening) "s1" "s9"
              (join_payload "AAAAAA" "u1") "AAAAAA" "u1" 5 5 6 room _ _
              (reachable_run _) Hold Hne eq_refl eq_refl Hroom Hfind)
    as (s1 & s2 & room1 & room2 & H).
  rewrite Hlen in H. exists s1, s2, room1, room2. exact H.
Defined.

(** ** What the older copy does differently *)

(** There a move is stored as it came: nothing is defaulted. *)
Lemma ServerIndex_keeps_payload room props :
  lastMove (state (ServerIndex.applyMoveServer room (JObj props))) = JObj props.
Proof. reflexivity. Qed.

(** There only the squares are validated. *)
Lemma ServerIndex_validates_squares move :
  ServerIndex.validateMovePayload move = Ok () ↔ bad_squares move = false.
Proof.
  unfold bad_squares. rewrite <- squares_check.
  unfold ServerIndex.validateMovePayload.
  repeat (match goal with
          | |- context [if ?b then _ else _] => destruct b; simpl
          end); done.
Qed.

(** There the second player joins without [room_joined] or
    [opponent_joined]: the snapshot is all that is emitted. *)
Lemma ServerIndex_join_emits :
  event <$> drop (length (outbox (run (take 2 opening))))
              (outbox (ServerIndex.handleJoinRoom "s2" (join_payload "AAAAAA" "u2")
                         2 2 (run (take 2 opening))).2)
  = ["room_state"].
Proof. vm_compute. reflexivity. Qed.
